(** * cirq.study.sweepable: normalising Sweepable values

    A shallow embedding of [src/cirq/study/sweepable.py] ([to_resolvers],
    [to_sweeps], [to_sweep], [_resolver_to_sweep]) and the properties the
    specification states about them. *)

From Stdlib Require Import List String ZArith Bool Arith Lia.
Import ListNotations.
Open Scope string_scope.
Open Scope list_scope.

Set Implicit Arguments.
Set Warnings "-register-all".

(* ================================================================== *)
(** ** Data model *)

(** A bound value: a number or a symbolic expression.  The code never looks
    inside one ([cast(float, value)] does nothing at run time). *)
Inductive value : Type :=
| Num (n : Z)
| Sym (name : string).

(** A Python [dict] with [str] keys: the pairs in insertion order.  A real
    dict holds each key once; [dict_ok] says so. *)
Definition dict : Type := list (string * value).

Definition dict_keys (d : dict) : list string := map fst d.

Definition dict_ok (d : dict) : Prop := NoDup (dict_keys d).

(** [d[k] = v]: a key already present keeps its place and takes the new
    value, a new key goes to the end. *)
Fixpoint dict_set (d : dict) (k : string) (v : value) : dict :=
  match d with
  | [] => [(k, v)]
  | (k', v') :: rest =>
      if String.eqb k' k then (k', v) :: rest
      else (k', v') :: dict_set rest k v
  end.

(** [d1.update(d2)]. *)
Definition dict_update (d1 d2 : dict) : dict :=
  fold_left (fun acc kv => dict_set acc (fst kv) (snd kv)) d2 d1.

(** [cirq.study.resolver.ParamResolver]: the Binding of the specification,
    with its [param_dict] accessor.  [ParamResolver d] is the constructor
    call. *)
Record ParamResolver : Type := mkParamResolver { param_dict : dict }.

(** [cirq.study.sweeps.Sweep] and the four variants the file imports.
    [Zip sweeps] is the call of [Zip] on the unpacked list [sweeps]. *)
Inductive Sweep : Type :=
| UnitSweep
| Points (key : string) (points : list value)
| Zip (sweeps : list Sweep)
| ListSweep (resolver_list : list ParamResolver).

(** The Python objects that reach the three functions: [None], a
    [ParamResolver], a raw [dict] (the other half of
    [ParamResolverOrSimilarType]), a [str] (what iterating a dict gives), a
    [Sweep], a list or tuple of objects, and an object that is none of these
    and not iterable (a number, say). *)
Inductive pyobj : Type :=
| PyNone
| PyResolver (r : ParamResolver)
| PyDict (d : dict)
| PyStr (s : string)
| PySweep (s : Sweep)
| PyList (items : list pyobj)
| PyOther (tag : Z).

(** Exceptions.  [TypeError msg v] carries the message prefix and the
    value formatted into it; [RecursionError] is what CPython raises when
    the call stack is exhausted. *)
Inductive exn : Type :=
| TypeError (msg : string) (offending : pyobj)
| RecursionError.

Inductive result (A : Type) : Type :=
| Ok (a : A)
| Raise (e : exn).
Arguments Ok {A} a.
Arguments Raise {A} e.

(** What consuming a generator gives: the items yielded, in order, and the
    exception that ended it, if one did. *)
Record trace : Type := mkTrace { yields : list ParamResolver; stop : option exn }.

Definition done (rs : list ParamResolver) : trace := mkTrace rs None.
Definition raising (e : exn) : trace := mkTrace [] (Some e).

(** Running one generator after another: the second is not reached when
    the first raised. *)
Definition trace_app (t1 t2 : trace) : trace :=
  match stop t1 with
  | Some _ => t1
  | None => mkTrace (yields t1 ++ yields t2) (stop t2)
  end.

(** [for g in gens: yield from g]. *)
Definition yield_from_each (gens : list trace) : trace :=
  fold_right trace_app (done []) gens.

(* ================================================================== *)
(** ** Sweeps as producers of bindings *)

(** Merging two bindings. *)
Definition merge_resolvers (r1 r2 : ParamResolver) : ParamResolver :=
  mkParamResolver (dict_update (param_dict r1) (param_dict r2)).

(** Positional merge of two sequences of bindings, as Python's [zip]
    pairs them. *)
Fixpoint zip_with_merge (l1 l2 : list ParamResolver) : list ParamResolver :=
  match l1, l2 with
  | r1 :: t1, r2 :: t2 => merge_resolvers r1 r2 :: zip_with_merge t1 t2
  | _, _ => []
  end.

Fixpoint zip_all (ls : list (list ParamResolver)) : list ParamResolver :=
  match ls with
  | [] => []
  | [l] => l
  | l :: rest => zip_with_merge l (zip_all rest)
  end.

(** Modelled from the spec: iterating a Sweep ([Sweep.__iter__] of
    [cirq.study.sweeps], not in this file).  [UnitSweep] produces the one
    empty binding; [Points key values] one binding [{key: v}] per value;
    [Zip] merges one binding from each sub-sweep positionally; [ListSweep]
    produces the given bindings in the given order. *)
Fixpoint sweep_iter (s : Sweep) : list ParamResolver :=
  match s with
  | UnitSweep => [mkParamResolver []]
  | Points key points => map (fun v => mkParamResolver [(key, v)]) points
  | Zip sweeps => zip_all (map sweep_iter sweeps)
  | ListSweep rs => rs
  end.

(** The keys a sweep binds: those of the bindings it produces. *)
Definition sweep_keys (s : Sweep) : list string :=
  match sweep_iter s with
  | [] => []
  | r :: _ => dict_keys (param_dict r)
  end.

(** Modelled from the spec: what [Zip] requires of its sub-sweeps, equal
    lengths and disjoint keys. *)
Definition Zip_ok (sweeps : list Sweep) : Prop :=
  (forall a b, In a sweeps -> In b sweeps ->
               List.length (sweep_iter a) = List.length (sweep_iter b))
  /\ NoDup (List.concat (map sweep_keys sweeps)).

(* ================================================================== *)
(** ** The iteration protocol *)

Fixpoint chars (s : string) : list string :=
  match s with
  | EmptyString => []
  | String c rest => String c EmptyString :: chars rest
  end.

(** [isinstance(x, Iterable)] together with [list(x)]: [None] when the
    object is not iterable, the items otherwise.  A dict iterates over its
    keys, a str over its one-character strings, a Sweep over its bindings. *)
Definition py_iter (x : pyobj) : option (list pyobj) :=
  match x with
  | PyNone => None
  | PyResolver _ => None
  | PyDict d => Some (map PyStr (dict_keys d))
  | PyStr s => Some (map PyStr (chars s))
  | PySweep s => Some (map PyResolver (sweep_iter s))
  | PyList items => Some items
  | PyOther _ => None
  end.

(* ================================================================== *)
(** ** The functions of sweepable.py *)

Definition is_Sweep (x : pyobj) : bool :=
  match x with PySweep _ => true | _ => false end.

Definition is_ParamResolver (x : pyobj) : bool :=
  match x with PyResolver _ => true | _ => false end.

(** [cast(List[Sweep], items)] and [cast(ParamResolver, p)]: no run-time
    effect; here they read the payload of objects already tested. *)
Fixpoint cast_Sweeps (items : list pyobj) : list Sweep :=
  match items with
  | PySweep s :: rest => s :: cast_Sweeps rest
  | _ :: rest => cast_Sweeps rest
  | [] => []
  end.

Fixpoint cast_ParamResolvers (items : list pyobj) : list ParamResolver :=
  match items with
  | PyResolver r :: rest => r :: cast_ParamResolvers rest
  | _ :: rest => cast_ParamResolvers rest
  | [] => []
  end.

Definition Unexpected_Sweepable : string := "Unexpected Sweepable: ".
Definition Unexpected_sweep_like : string := "Unexpected sweep-like value: ".

(** [_resolver_to_sweep]. *)
Definition _resolver_to_sweep (resolver : ParamResolver) : Sweep :=
  let params := param_dict resolver in
  match params with
  | [] => UnitSweep
  | _ => Zip (map (fun kv => Points (fst kv) [snd kv]) params)
  end.

(** The sweeps [_resolver_to_sweep] hands to [Zip]. *)
Definition points_of (params : dict) : list Sweep :=
  map (fun kv => Points (fst kv) [snd kv]) params.

(** [to_resolvers], a generator.  [fuel] is the call depth still
    available: each nested iterable is one more frame, and with none left
    the recursive call raises [RecursionError]. *)
Fixpoint to_resolvers (fuel : nat) (sweepable : pyobj) : trace :=
  match sweepable with
  | PyNone => done [mkParamResolver []]
  | PyResolver r => done [r]
  | PySweep s => done (sweep_iter s)
  | _ =>
      match py_iter sweepable with
      | Some items =>
          yield_from_each
            (map (match fuel with
                  | O => fun _ => raising RecursionError
                  | S fuel' => to_resolvers fuel'
                  end) items)
      | None => raising (TypeError Unexpected_Sweepable sweepable)
      end
  end.

(** [to_sweeps]. *)
Definition to_sweeps (sweepable : pyobj) : result (list Sweep) :=
  match sweepable with
  | PyNone => Ok [UnitSweep]
  | PyResolver r => Ok [_resolver_to_sweep r]
  | PySweep s => Ok [s]
  | _ =>
      match py_iter sweepable with
      | Some items =>
          if forallb is_Sweep items then Ok (cast_Sweeps items)
          else if forallb is_ParamResolver items then
            Ok (map _resolver_to_sweep (cast_ParamResolvers items))
          else Raise (TypeError Unexpected_Sweepable sweepable)
      | None => Raise (TypeError Unexpected_Sweepable sweepable)
      end
  end.

Section ToSweep.

(** The constructor of [ListSweep] lives in [cirq.study.sweeps], which is
    not in this file: the call [ListSweep(x)] is a parameter, given the
    object passed to it and returning the sweep built or the exception
    raised. *)
Variable ListSweep_init : pyobj -> result Sweep.

(** [to_sweep]. *)
Definition to_sweep (sweep_or_resolver_list : pyobj) : result Sweep :=
  match sweep_or_resolver_list with
  | PySweep s => Ok s
  | PyResolver _ | PyDict _ =>
      ListSweep_init (PyList [sweep_or_resolver_list])
  | _ =>
      match py_iter sweep_or_resolver_list with
      | Some _ => ListSweep_init sweep_or_resolver_list
      | None =>
          Raise (TypeError Unexpected_sweep_like sweep_or_resolver_list)
      end
  end.

End ToSweep.

(** A Binding-like object read as a binding: [ParamResolver(r)]. *)
Definition binding_like (x : pyobj) : option ParamResolver :=
  match x with
  | PyResolver r => Some r
  | PyDict d => Some (mkParamResolver d)
  | _ => None
  end.

(** Modelled from the spec: [ListSweep(bindings)] holds exactly the given
    bindings in the given order, a raw mapping counting as the binding with
    that mapping.  The spec leaves open what the constructor does with any
    other element, and so does this property. *)
Definition ListSweep_init_spec (init : pyobj -> result Sweep) : Prop :=
  forall items rs,
    map binding_like items = map Some rs ->
    init (PyList items) = Ok (ListSweep rs).

(** One constructor with that property: it refuses an element that is not
    Binding-like. *)
Fixpoint collect_bindings (items : list pyobj) : result (list ParamResolver) :=
  match items with
  | [] => Ok []
  | x :: rest =>
      match binding_like x with
      | None => Raise (TypeError "Not a ParamResolver or dict: " x)
      | Some r =>
          match collect_bindings rest with
          | Ok rs => Ok (r :: rs)
          | Raise e => Raise e
          end
      end
  end.

Definition ListSweep_strict (x : pyobj) : result Sweep :=
  match py_iter x with
  | None => Raise (TypeError "Not iterable: " x)
  | Some items =>
      match collect_bindings items with
      | Ok rs => Ok (ListSweep rs)
      | Raise e => Raise e
      end
  end.

(* ================================================================== *)
(** ** The Sweepable type, and flattening as the specification words it *)

(** [Sweepable]: [None], a binding, a sweep, or an iterable of Sweepables. *)
Fixpoint is_Sweepable (x : pyobj) : bool :=
  match x with
  | PyNone | PyResolver _ | PySweep _ => true
  | PyList items =>
      (fix all (l : list pyobj) : bool :=
         match l with
         | [] => true
         | y :: t => is_Sweepable y && all t
         end) items
  | _ => false
  end.

(** Nesting depth of lists. *)
Fixpoint depth (x : pyobj) : nat :=
  match x with
  | PyList items =>
      S ((fix deepest (l : list pyobj) : nat :=
            match l with
            | [] => O
            | y :: t => Nat.max (depth y) (deepest t)
            end) items)
  | _ => O
  end.

(** The specification's flattening: the leaf bindings reachable from the
    value, depth first and left to right, a sweep standing for the bindings
    it produces and [None] for the empty binding. *)
Fixpoint leaves (x : pyobj) : list ParamResolver :=
  match x with
  | PyNone => [mkParamResolver []]
  | PyResolver r => [r]
  | PySweep s => sweep_iter s
  | PyList items =>
      (fix each (l : list pyobj) : list ParamResolver :=
         match l with
         | [] => []
         | y :: t => leaves y ++ each t
         end) items
  | _ => []
  end.

(** [x] is the value itself or sits in it, at any depth of list nesting. *)
Inductive nested_in (x : pyobj) : pyobj -> Prop :=
| nested_here : nested_in x x
| nested_item (y : pyobj) (items : list pyobj) :
    In y items -> nested_in x y -> nested_in x (PyList items).

(** Every ParamResolver handed over, alone or as an item of the list,
    holds a dict (each key once). *)
Definition resolver_ok (x : pyobj) : Prop :=
  match x with
  | PyResolver r => dict_ok (param_dict r)
  | _ => True
  end.

Definition resolvers_ok (x : pyobj) : Prop :=
  match x with
  | PyList items => Forall resolver_ok items
  | _ => resolver_ok x
  end.

(* ================================================================== *)
(** ** Traces *)

Lemma trace_eta (t : trace) : mkTrace (yields t) (stop t) = t.
Proof. destruct t; reflexivity. Qed.

Lemma trace_app_done_l (t : trace) : trace_app (done []) t = t.
Proof. unfold trace_app; simpl. apply trace_eta. Qed.

Lemma trace_app_done_done (l1 l2 : list ParamResolver) :
  trace_app (done l1) (done l2) = done (l1 ++ l2).
Proof. reflexivity. Qed.

Lemma trace_app_assoc (t1 t2 t3 : trace) :
  trace_app t1 (trace_app t2 t3) = trace_app (trace_app t1 t2) t3.
Proof.
  destruct t1 as [y1 [e1|]], t2 as [y2 [e2|]]; unfold trace_app; simpl;
    try reflexivity.
  now rewrite app_assoc.
Qed.

Lemma yield_from_each_app (g1 g2 : list trace) :
  yield_from_each (g1 ++ g2)
  = trace_app (yield_from_each g1) (yield_from_each g2).
Proof.
  induction g1 as [|g g1 IH]; simpl.
  - now rewrite trace_app_done_l.
  - now rewrite IH, trace_app_assoc.
Qed.

Lemma yield_from_each_done (gens : list trace) :
  Forall (fun g => stop g = None) gens ->
  yield_from_each gens = done (List.concat (map yields gens)).
Proof.
  induction 1 as [|g gens Hg _ IH]; simpl; [reflexivity|].
  rewrite IH. unfold trace_app. now rewrite Hg.
Qed.

(** The recursive branch of [to_resolvers] on a list, one level unfolded. *)
Lemma to_resolvers_list (fuel : nat) (items : list pyobj) :
  to_resolvers (S fuel) (PyList items)
  = yield_from_each (map (to_resolvers fuel) items).
Proof. reflexivity. Qed.

(* ================================================================== *)
(** ** Sweepable values: list views of the nested definitions *)

Lemma is_Sweepable_list (items : list pyobj) :
  is_Sweepable (PyList items) = forallb is_Sweepable items.
Proof.
  simpl. induction items as [|y t IH]; simpl; [reflexivity|].
  now rewrite IH.
Qed.

Lemma depth_list (items : list pyobj) :
  depth (PyList items) = S (list_max (map depth items)).
Proof.
  simpl. f_equal. induction items as [|y t IH]; simpl; [reflexivity|].
  now rewrite IH.
Qed.

Lemma leaves_list (items : list pyobj) :
  leaves (PyList items) = List.concat (map leaves items).
Proof.
  simpl. induction items as [|y t IH]; simpl; [reflexivity|].
  now rewrite IH.
Qed.

Lemma depth_elem (items : list pyobj) (x : pyobj) :
  In x items -> depth x < depth (PyList items).
Proof.
  intros Hin. rewrite depth_list.
  assert (H : depth x <= list_max (map depth items)).
  { induction items as [|y t IH]; simpl in *; [contradiction|].
    destruct Hin as [->|Hin]; [lia|]. specialize (IH Hin). lia. }
  lia.
Qed.

(** With call depth to spare, [to_resolvers] on a Sweepable completes and
    yields the leaves. *)
Lemma to_resolvers_leaves (fuel : nat) :
  forall x, is_Sweepable x = true -> depth x <= fuel ->
            to_resolvers fuel x = done (leaves x).
Proof.
  induction fuel as [|n IH]; intros x Hs Hd.
  - destruct x; try reflexivity; try discriminate.
    rewrite depth_list in Hd. lia.
  - destruct x; try reflexivity; try discriminate.
    rewrite to_resolvers_list, leaves_list.
    rewrite is_Sweepable_list in Hs. rewrite forallb_forall in Hs.
    assert (Hall : forall y, In y items -> to_resolvers n y = done (leaves y)).
    { intros y Hy. apply IH; [auto|].
      pose proof (depth_elem items y Hy). lia. }
    rewrite yield_from_each_done.
    + f_equal. rewrite map_map. f_equal.
      apply map_ext_in. intros y Hy. now rewrite Hall.
    + apply Forall_forall. intros g Hg. apply in_map_iff in Hg.
      destruct Hg as [y [<- Hy]]. now rewrite Hall.
Qed.

(** Why the call depth is part of the model: a non-empty string iterates
    over strings that are non-empty again, so on it the recursion only ends
    when the stack does. *)
Lemma to_resolvers_str_exhausts (fuel : nat) (c : Ascii.ascii) :
  to_resolvers fuel (PyStr (String c EmptyString)) = raising RecursionError.
Proof.
  induction fuel as [|n IH]; [reflexivity|].
  change (to_resolvers (S n) (PyStr (String c EmptyString)))
    with (trace_app (to_resolvers n (PyStr (String c EmptyString))) (done [])).
  now rewrite IH.
Qed.

(* ================================================================== *)
(** ** Dicts *)

Lemma dict_set_fresh (d : dict) (k : string) (v : value) :
  ~ In k (dict_keys d) -> dict_set d k v = d ++ [(k, v)].
Proof.
  induction d as [|[k' v'] rest IH]; simpl; intros Hk; [reflexivity|].
  destruct (String.eqb_spec k' k) as [->|Hne].
  - exfalso. apply Hk. now left.
  - rewrite IH; [reflexivity|]. intros Hin. apply Hk. now right.
Qed.

Lemma dict_update_disjoint (d2 : dict) :
  forall d1, dict_ok (d1 ++ d2) -> dict_update d1 d2 = d1 ++ d2.
Proof.
  unfold dict_update, dict_ok, dict_keys.
  induction d2 as [|[k v] rest IH]; intros d1 Hok; simpl.
  - now rewrite app_nil_r.
  - rewrite dict_set_fresh.
    + rewrite IH; rewrite <- app_assoc; [reflexivity | exact Hok].
    + rewrite map_app in Hok. simpl in Hok.
      apply NoDup_remove_2 in Hok. intros Hin. apply Hok.
      apply in_or_app. now left.
Qed.

Lemma zip_all_points (params : dict) :
  params <> [] -> dict_ok params ->
  zip_all (map sweep_iter (points_of params)) = [mkParamResolver params].
Proof.
  induction params as [|[k v] rest IH]; intros Hne Hok; [congruence|].
  destruct rest as [|kv' rest']; [reflexivity|].
  change (zip_all (map sweep_iter (points_of ((k, v) :: kv' :: rest'))))
    with (zip_with_merge [mkParamResolver [(k, v)]]
            (zip_all (map sweep_iter (points_of (kv' :: rest'))))).
  rewrite IH; [|discriminate|].
  - simpl. unfold merge_resolvers. simpl param_dict.
    now rewrite (dict_update_disjoint (kv' :: rest') [(k, v)] Hok).
  - unfold dict_ok, dict_keys in *. simpl in Hok. now inversion Hok.
Qed.

Lemma sweep_keys_points (params : dict) :
  List.concat (map sweep_keys (points_of params)) = dict_keys params.
Proof.
  induction params as [|[k v] rest IH]; simpl; [reflexivity|].
  now rewrite IH.
Qed.

Lemma Zip_ok_points (params : dict) : dict_ok params -> Zip_ok (points_of params).
Proof.
  intros Hok. split.
  - intros a b Ha Hb. unfold points_of in Ha, Hb.
    apply in_map_iff in Ha. apply in_map_iff in Hb.
    destruct Ha as [kva [<- _]]. destruct Hb as [kvb [<- _]]. reflexivity.
  - rewrite sweep_keys_points. exact Hok.
Qed.

(* ================================================================== *)
(** ** Homogeneous collections *)

Lemma forallb_is_Sweep_view (items : list pyobj) :
  forallb is_Sweep items = true -> map PySweep (cast_Sweeps items) = items.
Proof.
  induction items as [|x t IH]; simpl; [reflexivity|].
  destruct x; simpl; try discriminate. intros H. now rewrite IH.
Qed.

Lemma forallb_is_ParamResolver_view (items : list pyobj) :
  forallb is_ParamResolver items = true ->
  map PyResolver (cast_ParamResolvers items) = items.
Proof.
  induction items as [|x t IH]; simpl; [reflexivity|].
  destruct x; simpl; try discriminate. intros H. now rewrite IH.
Qed.

Lemma both_kinds_empty (items : list pyobj) :
  forallb is_Sweep items = true -> forallb is_ParamResolver items = true ->
  items = [].
Proof.
  destruct items as [|x t]; [reflexivity|]. simpl.
  destruct x; simpl; discriminate.
Qed.

Lemma forallb_false_of_elem (p : pyobj -> bool) (items : list pyobj) (x : pyobj) :
  In x items -> p x = false -> forallb p items = false.
Proof.
  intros Hin Hp. destruct (forallb p items) eqn:E; [|reflexivity].
  rewrite forallb_forall in E. rewrite (E x Hin) in Hp. discriminate.
Qed.

(** The iterable branch of [to_sweeps] on a list. *)
Lemma to_sweeps_list (items : list pyobj) :
  to_sweeps (PyList items)
  = if forallb is_Sweep items then Ok (cast_Sweeps items)
    else if forallb is_ParamResolver items then
      Ok (map _resolver_to_sweep (cast_ParamResolvers items))
    else Raise (TypeError Unexpected_Sweepable (PyList items)).
Proof. reflexivity. Qed.

(** The strict constructor meets the specification's description of
    [ListSweep]. *)
Lemma ListSweep_strict_spec : ListSweep_init_spec ListSweep_strict.
Proof.
  intros items rs H. unfold ListSweep_strict. simpl.
  assert (E : collect_bindings items = Ok rs).
  { revert rs H. induction items as [|x t IH]; intros [|r rs] H;
      simpl in *; try discriminate; [reflexivity|].
    injection H as Hx Ht. rewrite Hx. now rewrite (IH rs Ht). }
  now rewrite E.
Qed.

(* ================================================================== *)
(** ** Properties of the specification *)

(** C1, as the specification states it, fails: on the empty list
    [to_sweeps] raises nothing.  [all(...)] over no items is true, so the
    first homogeneity test passes. *)
Lemma to_sweeps_empty_no_raise :
  ~ exists e, to_sweeps (PyList []) = Raise e.
Proof. intros [e H]. discriminate H. Qed.

(** C1 (amended): for an empty iterable (an empty list, an empty dict, an
    empty string) [to_sweeps] returns the empty list of sweeps and raises
    no error. *)
Theorem empty_iterable_gives_no_sweeps :
  to_sweeps (PyList []) = Ok []
  /\ to_sweeps (PyDict []) = Ok []
  /\ to_sweeps (PyStr "") = Ok [].
Proof. repeat split; reflexivity. Qed.

(** C2: on [None], [to_resolvers] yields exactly one binding, the empty
    one, and ends normally, whatever call depth is left; [to_sweeps]
    returns the one-element list [[UnitSweep]]. *)
Theorem none_normalised (fuel : nat) :
  to_resolvers fuel PyNone = done [mkParamResolver []]
  /\ to_sweeps PyNone = Ok [UnitSweep].
Proof. split; [destruct fuel|]; reflexivity. Qed.

(** C3: for a list that is a Sweepable (nested to any depth), with call
    depth to spare, the run of [to_resolvers] on each element completes,
    the run on the list completes and yields the concatenation, in element
    order, of what the runs on the elements yield, and that sequence is the
    depth-first, left-to-right list of leaf bindings: each leaf binding and
    each binding produced by a leaf sweep once, in encounter order. *)
Theorem to_resolvers_flattens (items : list pyobj) (fuel : nat) :
  is_Sweepable (PyList items) = true ->
  depth (PyList items) <= fuel ->
  Forall (fun x => stop (to_resolvers fuel x) = None) items
  /\ to_resolvers fuel (PyList items)
     = done (List.concat (map (fun x => yields (to_resolvers fuel x)) items))
  /\ to_resolvers fuel (PyList items) = done (leaves (PyList items)).
Proof.
  intros Hs Hd.
  assert (Hall : forall y, In y items -> to_resolvers fuel y = done (leaves y)).
  { intros y Hy. apply to_resolvers_leaves.
    - rewrite is_Sweepable_list, forallb_forall in Hs. auto.
    - pose proof (depth_elem items y Hy). lia. }
  pose proof (to_resolvers_leaves (PyList items) Hs Hd) as Hwhole.
  split; [|split].
  - apply Forall_forall. intros y Hy. now rewrite Hall.
  - rewrite Hwhole, leaves_list. f_equal. f_equal.
    apply map_ext_in. intros y Hy. now rewrite Hall.
  - exact Hwhole.
Qed.

Lemma to_resolvers_flattens_witness :
  let b1 := mkParamResolver [("a", Num 1)] in
  let b2 := mkParamResolver [("b", Num 2)] in
  let s1 := Points "c" [Num 3; Num 4] in
  let nested :=
    [PyList [PyResolver b1; PyResolver b2]; PySweep s1;
     PyList [PySweep UnitSweep]] in
  is_Sweepable (PyList nested) = true
  /\ depth (PyList nested) <= 2
  /\ to_resolvers 2 (PyList nested)
     = done [b1; b2; mkParamResolver [("c", Num 3)];
             mkParamResolver [("c", Num 4)]; mkParamResolver []].
Proof.
  intros b1 b2 s1 nested.
  split; [reflexivity|]. split; [apply le_n|].
  exact (proj2 (proj2
    (@to_resolvers_flattens nested 2 eq_refl (le_n 2)))).
Defined.

(** C4: [_resolver_to_sweep] returns [UnitSweep] for a binding with an
    empty mapping, and otherwise the [Zip] of one [Points key [value]] per
    pair of the mapping, each with a one-element value list, in the
    mapping's own order.  For a binding whose mapping is a dict (each key
    once), the sub-sweeps meet what [Zip] requires and iterating the result
    yields exactly that one binding. *)
Theorem resolver_to_sweep_roundtrip (b : ParamResolver) :
  (param_dict b = [] -> _resolver_to_sweep b = UnitSweep)
  /\ (param_dict b <> [] ->
      _resolver_to_sweep b
      = Zip (map (fun kv => Points (fst kv) [snd kv]) (param_dict b))
      /\ map sweep_keys (map (fun kv => Points (fst kv) [snd kv]) (param_dict b))
         = map (fun k => [k]) (dict_keys (param_dict b)))
  /\ (dict_ok (param_dict b) ->
      Zip_ok (map (fun kv => Points (fst kv) [snd kv]) (param_dict b))
      /\ sweep_iter (_resolver_to_sweep b) = [b]).
Proof.
  destruct b as [params]. simpl. split; [|split].
  - intros ->. reflexivity.
  - intros Hne. split.
    + unfold _resolver_to_sweep. simpl. destruct params; [congruence|reflexivity].
    + unfold dict_keys. rewrite !map_map. reflexivity.
  - intros Hok. split; [now apply Zip_ok_points|].
    unfold _resolver_to_sweep. simpl. destruct params as [|kv rest]; [reflexivity|].
    apply (zip_all_points (params := kv :: rest)); [discriminate | exact Hok].
Qed.

Lemma resolver_to_sweep_roundtrip_witness :
  let b := mkParamResolver [("x", Num 1); ("y", Sym "theta")] in
  dict_ok (param_dict b)
  /\ _resolver_to_sweep b = Zip [Points "x" [Num 1]; Points "y" [Sym "theta"]]
  /\ sweep_iter (_resolver_to_sweep b) = [b].
Proof.
  intros b.
  assert (Hok : dict_ok (param_dict b)).
  { unfold dict_ok. simpl. repeat constructor; simpl; intuition discriminate. }
  destruct (resolver_to_sweep_roundtrip b) as [_ [Hzip Hiter]].
  split; [exact Hok|]. split.
  - apply Hzip. discriminate.
  - apply Hiter. exact Hok.
Defined.

(** C5: a Sweep given as the whole input passes through: [to_resolvers]
    yields the bindings that iterating the sweep produces, in its order,
    [to_sweeps] returns the one-element list holding it, and [to_sweep]
    returns it, whatever the [ListSweep] constructor does. *)
Theorem sweep_passes_through (s : Sweep) (fuel : nat)
    (ListSweep_init : pyobj -> result Sweep) :
  to_resolvers fuel (PySweep s) = done (sweep_iter s)
  /\ to_sweeps (PySweep s) = Ok [s]
  /\ to_sweep ListSweep_init (PySweep s) = Ok s.
Proof. repeat split; destruct fuel; reflexivity. Qed.

(** C6: on a list whose items are neither all Sweeps nor all
    ParamResolvers (such a list has an item), [to_sweeps] raises TypeError
    for the list; so it does as soon as one item is neither (a nested list,
    say: there is no recursion), or one is a Sweep and another a
    ParamResolver.  When all items are Sweeps it returns them as they are,
    in order; when all are ParamResolvers it returns [_resolver_to_sweep] of
    each, in order. *)
Theorem to_sweeps_homogeneity (items : list pyobj) :
  (forallb is_Sweep items = false ->
   forallb is_ParamResolver items = false ->
   items <> []
   /\ to_sweeps (PyList items)
      = Raise (TypeError Unexpected_Sweepable (PyList items)))
  /\ (forall x, In x items -> is_Sweep x = false ->
                is_ParamResolver x = false ->
      to_sweeps (PyList items)
      = Raise (TypeError Unexpected_Sweepable (PyList items)))
  /\ (forall sub, In (PyList sub) items ->
      to_sweeps (PyList items)
      = Raise (TypeError Unexpected_Sweepable (PyList items)))
  /\ (forall s r, In (PySweep s) items -> In (PyResolver r) items ->
      to_sweeps (PyList items)
      = Raise (TypeError Unexpected_Sweepable (PyList items)))
  /\ (forallb is_Sweep items = true ->
      exists ss, map PySweep ss = items /\ to_sweeps (PyList items) = Ok ss)
  /\ (forallb is_ParamResolver items = true ->
      exists rs, map PyResolver rs = items
                 /\ to_sweeps (PyList items) = Ok (map _resolver_to_sweep rs)).
Proof.
  assert (Hraise : forallb is_Sweep items = false ->
                   forallb is_ParamResolver items = false ->
                   to_sweeps (PyList items)
                   = Raise (TypeError Unexpected_Sweepable (PyList items))).
  { intros H1 H2. now rewrite to_sweeps_list, H1, H2. }
  split; [|split; [|split; [|split; [|split]]]].
  - intros H1 H2. split; [|now apply Hraise].
    intros ->. discriminate H1.
  - intros x Hin Hs Hr.
    apply Hraise; now apply forallb_false_of_elem with x.
  - intros sub Hin.
    apply Hraise; now apply forallb_false_of_elem with (PyList sub).
  - intros s r Hs Hr. apply Hraise.
    + now apply forallb_false_of_elem with (PyResolver r).
    + now apply forallb_false_of_elem with (PySweep s).
  - intros H. exists (cast_Sweeps items). split.
    + now apply forallb_is_Sweep_view.
    + now rewrite to_sweeps_list, H.
  - intros H. exists (cast_ParamResolvers items). split.
    + now apply forallb_is_ParamResolver_view.
    + rewrite to_sweeps_list.
      destruct (forallb is_Sweep items) eqn:E.
      * rewrite (both_kinds_empty items E H). reflexivity.
      * now rewrite H.
Qed.

Lemma to_sweeps_homogeneity_witness :
  let b1 := mkParamResolver [("a", Num 1)] in
  let s1 := Points "a" [Num 1; Num 2] in
  let mixed := [PyResolver b1; PySweep s1] in
  forallb is_Sweep mixed = false
  /\ forallb is_ParamResolver mixed = false
  /\ to_sweeps (PyList mixed)
     = Raise (TypeError Unexpected_Sweepable (PyList mixed)).
Proof.
  intros b1 s1 mixed.
  split; [reflexivity|]. split; [reflexivity|].
  exact (proj2 (proj1 (to_sweeps_homogeneity mixed) eq_refl eq_refl)).
Defined.

(** C7: [to_sweep] hands a single ParamResolver or raw dict to the
    [ListSweep] constructor as the one-element list holding it, and any
    other iterable (a list, with a Sweep among its items or not; a string)
    to the constructor as it is: the items are not inspected, reordered or
    replaced here, and the result is whatever the constructor returns.
    With a constructor as the specification describes it, a Binding-like
    value gives the [ListSweep] of that one binding and a list of
    Binding-like values the [ListSweep] of their bindings in order. *)
Theorem to_sweep_wraps (ListSweep_init : pyobj -> result Sweep) :
  (forall r, to_sweep ListSweep_init (PyResolver r)
             = ListSweep_init (PyList [PyResolver r]))
  /\ (forall d, to_sweep ListSweep_init (PyDict d)
                = ListSweep_init (PyList [PyDict d]))
  /\ (forall items, to_sweep ListSweep_init (PyList items)
                    = ListSweep_init (PyList items))
  /\ (forall s rest, to_sweep ListSweep_init (PyList (PySweep s :: rest))
                     = ListSweep_init (PyList (PySweep s :: rest)))
  /\ (forall str, to_sweep ListSweep_init (PyStr str)
                  = ListSweep_init (PyStr str))
  /\ (ListSweep_init_spec ListSweep_init ->
      (forall x r, binding_like x = Some r ->
                   to_sweep ListSweep_init x = Ok (ListSweep [r]))
      /\ (forall items rs, map binding_like items = map Some rs ->
                           to_sweep ListSweep_init (PyList items)
                           = Ok (ListSweep rs))).
Proof.
  repeat split; try reflexivity.
  - intros x r Hx. destruct x; try discriminate Hx; simpl;
      apply H; simpl; now rewrite <- Hx.
  - intros items rs Hrs. simpl. now apply H.
Qed.

Lemma to_sweep_wraps_witness :
  let b1 := mkParamResolver [("x", Num 1)] in
  let b2 := mkParamResolver [("x", Num 2)] in
  to_sweep ListSweep_strict (PyDict [("x", Num 1)]) = Ok (ListSweep [b1])
  /\ to_sweep ListSweep_strict (PyResolver b1) = Ok (ListSweep [b1])
  /\ to_sweep ListSweep_strict (PyList [PyResolver b1; PyResolver b2])
     = Ok (ListSweep [b1; b2]).
Proof.
  intros b1 b2.
  destruct (to_sweep_wraps ListSweep_strict) as [_ [_ [_ [_ [_ Hspec]]]]].
  destruct (Hspec ListSweep_strict_spec) as [Hone Hmany].
  split; [|split].
  - apply Hone. reflexivity.
  - apply Hone. reflexivity.
  - apply Hmany. reflexivity.
Defined.

(** C8: a ParamResolver given as the whole input: [to_resolvers] yields
    exactly that binding and ends normally, whatever call depth is left,
    and [to_sweeps] returns the one-element list holding
    [_resolver_to_sweep] of it. *)
Theorem resolver_normalised (b : ParamResolver) (fuel : nat) :
  to_resolvers fuel (PyResolver b) = done [b]
  /\ to_sweeps (PyResolver b) = Ok [_resolver_to_sweep b].
Proof. split; [destruct fuel|]; reflexivity. Qed.

(** C9: on an empty list [to_sweep] makes no emptiness or homogeneity
    check: it hands the list to the [ListSweep] constructor and returns
    what that returns.  With a constructor as the specification describes
    it, that is the [ListSweep] of no bindings, which produces none. *)
Theorem to_sweep_empty (ListSweep_init : pyobj -> result Sweep) :
  to_sweep ListSweep_init (PyList []) = ListSweep_init (PyList [])
  /\ (ListSweep_init_spec ListSweep_init ->
      to_sweep ListSweep_init (PyList []) = Ok (ListSweep [])
      /\ sweep_iter (ListSweep []) = []).
Proof.
  split; [reflexivity|]. intros Hspec. split; [|reflexivity].
  simpl. now apply Hspec.
Qed.

Lemma to_sweep_empty_witness :
  to_sweep ListSweep_strict (PyList []) = Ok (ListSweep [])
  /\ sweep_iter (ListSweep []) = [].
Proof.
  exact (proj2 (to_sweep_empty ListSweep_strict) ListSweep_strict_spec).
Defined.

(** C10: [None] as an item of a list given to [to_resolvers] contributes
    exactly one empty binding at its place: the run on the list is the run
    on the items before it, then that binding, then the run on the items
    after it.  A list of [n] times [None] yields [n] empty bindings, two for
    [[None, None]]. *)
Theorem to_resolvers_none_item (fuel : nat) :
  (forall before after,
      to_resolvers (S fuel) (PyList (before ++ PyNone :: after))
      = trace_app (to_resolvers (S fuel) (PyList before))
          (trace_app (done [mkParamResolver []])
             (to_resolvers (S fuel) (PyList after))))
  /\ (forall n,
      to_resolvers (S fuel) (PyList (repeat PyNone n))
      = done (repeat (mkParamResolver []) n))
  /\ to_resolvers (S fuel) (PyList [PyNone; PyNone])
     = done [mkParamResolver []; mkParamResolver []].
Proof.
  assert (Hnone : to_resolvers fuel PyNone = done [mkParamResolver []])
    by (destruct fuel; reflexivity).
  assert (Hrep : forall n, to_resolvers (S fuel) (PyList (repeat PyNone n))
                           = done (repeat (mkParamResolver []) n)).
  { intros n. rewrite to_resolvers_list.
    induction n as [|n IH]; [reflexivity|].
    change (yield_from_each (map (to_resolvers fuel) (repeat PyNone (S n))))
      with (trace_app (to_resolvers fuel PyNone)
              (yield_from_each (map (to_resolvers fuel) (repeat PyNone n)))).
    now rewrite IH, Hnone. }
  split; [|split].
  - intros before after. rewrite !to_resolvers_list, map_app.
    rewrite yield_from_each_app. simpl. now rewrite Hnone.
  - exact Hrep.
  - exact (Hrep 2).
Qed.

(* ================================================================== *)
(** ** Further properties of the code *)

Lemma stop_yield_from_each (gens : list trace) (e : exn) :
  stop (yield_from_each gens) = Some e ->
  exists g, In g gens /\ stop g = Some e.
Proof.
  induction gens as [|g gens IH]; simpl; [discriminate|].
  unfold trace_app. destruct (stop g) eqn:Eg.
  - rewrite Eg. intros [= ->]. exists g. auto.
  - simpl. intros H. destruct (IH H) as [g' [Hin Hg']]. exists g'. auto.
Qed.

Lemma nested_in_leaf (v x : pyobj) :
  nested_in v x -> (forall l, x <> PyList l) -> v = x.
Proof.
  intros H Hx. destruct H as [|y items _ _]; [reflexivity|].
  now elim (Hx items).
Qed.

(** X1: a TypeError out of [to_resolvers] carries the message of line 40
    and names the innermost offending value, one that sits in the input
    (at any depth of list nesting) and is not iterable, not [None], not a
    ParamResolver and not a Sweep; it is never the enclosing collection. *)
Theorem to_resolvers_type_error_names_leaf (fuel : nat) :
  forall x msg v,
    stop (to_resolvers fuel x) = Some (TypeError msg v) ->
    msg = Unexpected_Sweepable
    /\ nested_in v x
    /\ py_iter v = None
    /\ is_Sweepable v = false.
Proof.
  induction fuel as [|n IH]; intros x msg v H.
  - destruct x; simpl in H; try discriminate.
    + apply stop_yield_from_each in H. destruct H as [g [Hg Hs]].
      apply in_map_iff in Hg. destruct Hg as [y [<- _]]. discriminate.
    + apply stop_yield_from_each in H. destruct H as [g [Hg Hs]].
      apply in_map_iff in Hg. destruct Hg as [y [<- _]]. discriminate.
    + apply stop_yield_from_each in H. destruct H as [g [Hg Hs]].
      apply in_map_iff in Hg. destruct Hg as [y [<- _]]. discriminate.
    + injection H as <- <-. repeat split. constructor.
  - destruct x; simpl in H; try discriminate.
    + apply stop_yield_from_each in H. destruct H as [g [Hg Hs]].
      apply in_map_iff in Hg. destruct Hg as [y [<- Hy]].
      apply in_map_iff in Hy. destruct Hy as [k [<- _]].
      destruct (IH _ _ _ Hs) as [_ [Hn [Hi _]]].
      apply nested_in_leaf in Hn; [|discriminate]. now subst v.
    + apply stop_yield_from_each in H. destruct H as [g [Hg Hs]].
      apply in_map_iff in Hg. destruct Hg as [y [<- Hy]].
      apply in_map_iff in Hy. destruct Hy as [k [<- _]].
      destruct (IH _ _ _ Hs) as [_ [Hn [Hi _]]].
      apply nested_in_leaf in Hn; [|discriminate]. now subst v.
    + apply stop_yield_from_each in H. destruct H as [g [Hg Hs]].
      apply in_map_iff in Hg. destruct Hg as [y [<- Hy]].
      destruct (IH _ _ _ Hs) as [Hm [Hn [Hi Hsw]]].
      repeat split; auto. now apply nested_item with y.
    + injection H as <- <-. repeat split. constructor.
Qed.

Lemma to_resolvers_type_error_names_leaf_witness :
  let b := mkParamResolver [("a", Num 1)] in
  let x := PyList [PyResolver b; PyList [PyOther 7; PyNone]] in
  stop (to_resolvers 2 x) = Some (TypeError Unexpected_Sweepable (PyOther 7))
  /\ nested_in (PyOther 7) x
  /\ py_iter (PyOther 7) = None.
Proof.
  intros b x.
  assert (H : stop (to_resolvers 2 x)
              = Some (TypeError Unexpected_Sweepable (PyOther 7)))
    by reflexivity.
  destruct (@to_resolvers_type_error_names_leaf 2 x _ _ H) as [_ [Hn [Hi _]]].
  split; [exact H|]. split; [exact Hn | exact Hi].
Defined.

(** X2: [to_resolvers] is lazy about errors.  When the items before some
    item of a list run to completion and the run on that item raises, the
    run on the list yields everything yielded up to there and then raises
    the same exception; the items after it are never looked at. *)
Theorem to_resolvers_stops_at_first_error
    (fuel : nat) (before after : list pyobj) (x : pyobj) (e : exn) :
  stop (to_resolvers (S fuel) (PyList before)) = None ->
  stop (to_resolvers fuel x) = Some e ->
  to_resolvers (S fuel) (PyList (before ++ x :: after))
  = mkTrace (yields (to_resolvers (S fuel) (PyList before))
             ++ yields (to_resolvers fuel x))
            (Some e).
Proof.
  intros Hb Hx.
  rewrite (to_resolvers_list fuel (before ++ x :: after)), map_app.
  rewrite yield_from_each_app, <- to_resolvers_list.
  change (yield_from_each (map (to_resolvers fuel) (x :: after)))
    with (trace_app (to_resolvers fuel x)
            (yield_from_each (map (to_resolvers fuel) after))).
  unfold trace_app at 2. rewrite Hx.
  unfold trace_app. now rewrite Hb, Hx.
Qed.

Lemma to_resolvers_stops_at_first_error_witness :
  let b := mkParamResolver [("a", Num 1)] in
  to_resolvers 1 (PyList ([PyResolver b; PyNone] ++ PyOther 0 :: [PyResolver b]))
  = mkTrace [b; mkParamResolver []]
      (Some (TypeError Unexpected_Sweepable (PyOther 0))).
Proof.
  intros b.
  exact (@to_resolvers_stops_at_first_error 0 [PyResolver b; PyNone]
           [PyResolver b] (PyOther 0) _ eq_refl eq_refl).
Defined.

(** X3: whenever [to_sweeps] raises, the exception is the TypeError of
    line 57, and the value it names is the whole argument, also when a
    single item of a collection is at fault. *)
Theorem to_sweeps_error_names_input (x : pyobj) (e : exn) :
  to_sweeps x = Raise e -> e = TypeError Unexpected_Sweepable x.
Proof.
  unfold to_sweeps.
  destruct x; simpl; try discriminate;
    repeat match goal with
           | |- context [if ?c then _ else _] => destruct c
           end;
    try discriminate; now intros [= <-].
Qed.

Lemma to_sweeps_error_names_input_witness :
  let x := PyList [PySweep UnitSweep; PyOther 3] in
  to_sweeps x = Raise (TypeError Unexpected_Sweepable x).
Proof.
  intros x.
  assert (H : exists e, to_sweeps x = Raise e) by (eexists; reflexivity).
  destruct H as [e H].
  rewrite H. f_equal.
  exact (@to_sweeps_error_names_input x e H).
Defined.

Lemma resolver_sweep_iter (r : ParamResolver) :
  dict_ok (param_dict r) -> sweep_iter (_resolver_to_sweep r) = [r].
Proof.
  destruct r as [params]. unfold _resolver_to_sweep. simpl. intros Hok.
  destruct params as [|kv rest]; [reflexivity|].
  apply (zip_all_points (params := kv :: rest)); [discriminate | exact Hok].
Qed.

Lemma to_resolvers_sweeps (fuel : nat) (ss : list Sweep) :
  to_resolvers (S fuel) (PyList (map PySweep ss))
  = done (List.concat (map sweep_iter ss)).
Proof.
  rewrite to_resolvers_list, yield_from_each_done.
  - f_equal. rewrite !map_map. f_equal. apply map_ext.
    intros s. destruct fuel; reflexivity.
  - apply Forall_forall. intros g Hg. rewrite map_map in Hg.
    apply in_map_iff in Hg. destruct Hg as [s [<- _]].
    destruct fuel; reflexivity.
Qed.

Lemma to_resolvers_resolvers (fuel : nat) (rs : list ParamResolver) :
  to_resolvers (S fuel) (PyList (map PyResolver rs)) = done rs.
Proof.
  rewrite to_resolvers_list, yield_from_each_done.
  - f_equal. rewrite !map_map.
    induction rs as [|r rs IH]; simpl; [reflexivity|].
    rewrite IH. destruct fuel; reflexivity.
  - apply Forall_forall. intros g Hg. rewrite map_map in Hg.
    apply in_map_iff in Hg. destruct Hg as [s [<- _]].
    destruct fuel; reflexivity.
Qed.

Lemma concat_resolver_sweeps (rs : list ParamResolver) :
  Forall resolver_ok (map PyResolver rs) ->
  List.concat (map sweep_iter (map _resolver_to_sweep rs)) = rs.
Proof.
  induction rs as [|r rs IH]; simpl; intros H; [reflexivity|].
  inversion H as [|? ? Hr Hrs]; subst.
  rewrite (resolver_sweep_iter r Hr). simpl. now rewrite IH.
Qed.

(** X4: [to_sweeps] and [to_resolvers] agree.  Whenever [to_sweeps]
    accepts a value whose ParamResolvers hold dicts, [to_resolvers] on the
    same value completes without error and yields exactly the bindings that
    the returned sweeps produce, sweep after sweep in list order. *)
Theorem to_sweeps_agrees_with_to_resolvers
    (fuel : nat) (x : pyobj) (ss : list Sweep) :
  to_sweeps x = Ok ss ->
  resolvers_ok x ->
  to_resolvers (S fuel) x = done (List.concat (map sweep_iter ss)).
Proof.
  intros Hs Hok. destruct x.
  - injection Hs as <-. reflexivity.
  - injection Hs as <-. simpl in Hok. simpl List.concat.
    now rewrite (resolver_sweep_iter r Hok).
  - destruct d as [|[k v] rest]; [|discriminate Hs].
    injection Hs as <-. reflexivity.
  - destruct s as [|c rest]; [|discriminate Hs].
    injection Hs as <-. reflexivity.
  - injection Hs as <-. simpl. now rewrite app_nil_r.
  - rewrite to_sweeps_list in Hs.
    destruct (forallb is_Sweep items) eqn:E1.
    + injection Hs as <-.
      rewrite <- (forallb_is_Sweep_view items E1) at 1.
      apply to_resolvers_sweeps.
    + destruct (forallb is_ParamResolver items) eqn:E2; [|discriminate Hs].
      injection Hs as <-.
      pose proof (forallb_is_ParamResolver_view items E2) as Hview.
      simpl in Hok. rewrite <- Hview in Hok.
      rewrite (concat_resolver_sweeps _ Hok).
      rewrite <- Hview at 1. apply to_resolvers_resolvers.
  - discriminate Hs.
Qed.

Lemma to_sweeps_agrees_with_to_resolvers_witness :
  let b1 := mkParamResolver [("a", Num 1); ("b", Num 2)] in
  let b2 := mkParamResolver [] in
  let x := PyList [PyResolver b1; PyResolver b2] in
  to_sweeps x = Ok [Zip [Points "a" [Num 1]; Points "b" [Num 2]]; UnitSweep]
  /\ to_resolvers 1 x = done [b1; b2].
Proof.
  intros b1 b2 x. split; [reflexivity|].
  refine (@to_sweeps_agrees_with_to_resolvers 0 x _ eq_refl _).
  repeat constructor; simpl; intuition discriminate.
Defined.



Lemma points_of_inj (d1 : dict) :
  forall d2, points_of d1 = points_of d2 -> d1 = d2.
Proof.
  induction d1 as [|[k1 v1] r1 IH]; intros [|[k2 v2] r2] H;
    simpl in H; try discriminate; [reflexivity|].
  injection H as -> -> Hr. now rewrite (IH r2 Hr).
Qed.

(** X6: [_resolver_to_sweep] loses nothing: two bindings that give the
    same sweep have the same mapping, pair for pair and in the same
    order. *)
Theorem resolver_to_sweep_injective (b1 b2 : ParamResolver) :
  _resolver_to_sweep b1 = _resolver_to_sweep b2 -> b1 = b2.
Proof.
  destruct b1 as [d1], b2 as [d2]. unfold _resolver_to_sweep. simpl.
  destruct d1 as [|p1 r1], d2 as [|p2 r2]; try discriminate; [reflexivity|].
  intros [= Hk Hv Hr]. f_equal. destruct p1, p2. simpl in Hk, Hv. subst.
  f_equal. now apply points_of_inj.
Qed.

Lemma resolver_to_sweep_injective_witness :
  let b := mkParamResolver [("x", Num 1)] in
  _resolver_to_sweep b = Zip [Points "x" [Num 1]] /\ b = b.
Proof.
  intros b. split; [reflexivity|].
  exact (@resolver_to_sweep_injective b b eq_refl).
Defined.

Lemma to_resolvers_nonempty_str (fuel : nat) (c : Ascii.ascii) (rest : string) :
  to_resolvers fuel (PyStr (String c rest)) = raising RecursionError.
Proof.
  destruct fuel as [|n]; [reflexivity|].
  change (to_resolvers (S n) (PyStr (String c rest)))
    with (trace_app (to_resolvers n (PyStr (String c EmptyString)))
            (yield_from_each (map (to_resolvers n) (map PyStr (chars rest))))).
  now rewrite to_resolvers_str_exhausts.
Qed.

(** X7: only [to_sweep] takes a raw dict as a binding.  [to_resolvers]
    and [to_sweeps] have no dict case, so a dict falls to their Iterable
    branch and is read as the collection of its keys: for a dict whose
    first key is a non-empty string, [to_resolvers] yields nothing and ends
    in RecursionError however deep the stack is (the key is a string of
    strings without end), and [to_sweeps] raises TypeError, while [to_sweep]
    hands the dict to the [ListSweep] constructor as a one-item list. *)
Theorem raw_dict_only_for_to_sweep
    (c : Ascii.ascii) (k : string) (v : value) (rest : dict) :
  let d := PyDict ((String c k, v) :: rest) in
  (forall fuel, to_resolvers fuel d = raising RecursionError)
  /\ to_sweeps d = Raise (TypeError Unexpected_Sweepable d)
  /\ (forall ListSweep_init,
         to_sweep ListSweep_init d = ListSweep_init (PyList [d])).
Proof.
  intros d. split; [|split; reflexivity].
  intros [|n]; [reflexivity|].
  change (to_resolvers (S n) d)
    with (trace_app (to_resolvers n (PyStr (String c k)))
            (yield_from_each
               (map (to_resolvers n) (map PyStr (dict_keys rest))))).
  now rewrite to_resolvers_nonempty_str.
Qed.



(** X9: on a list of ParamResolvers [to_sweep] and [to_resolvers]
    describe the same bindings: with a [ListSweep] constructor as the
    specification describes it, [to_sweep] returns a sweep whose bindings
    are exactly the sequence [to_resolvers] yields, in the same order. *)
Theorem to_sweep_agrees_with_to_resolvers
    (ListSweep_init : pyobj -> result Sweep) (fuel : nat)
    (rs : list ParamResolver) :
  ListSweep_init_spec ListSweep_init ->
  exists s,
    to_sweep ListSweep_init (PyList (map PyResolver rs)) = Ok s
    /\ to_resolvers (S fuel) (PyList (map PyResolver rs))
       = done (sweep_iter s).
Proof.
  intros Hspec. exists (ListSweep rs). split.
  - simpl. apply Hspec. rewrite map_map. reflexivity.
  - apply to_resolvers_resolvers.
Qed.

Lemma to_sweep_agrees_with_to_resolvers_witness :
  let b1 := mkParamResolver [("a", Num 1)] in
  let b2 := mkParamResolver [("a", Num 2)] in
  exists s,
    to_sweep ListSweep_strict (PyList (map PyResolver [b1; b2])) = Ok s
    /\ to_resolvers 1 (PyList (map PyResolver [b1; b2])) = done (sweep_iter s).
Proof.
  intros b1 b2.
  exact (@to_sweep_agrees_with_to_resolvers ListSweep_strict 0 [b1; b2]
           ListSweep_strict_spec).
Defined.
